(** * ScoreMyFood: the scan screen ([app/(tabs)/index.tsx])

    A shallow embedding of the client-side scan pipeline: the score engine
    [computeHealthScore], the backend client [uploadToBackend], the session
    controller [pickAndScan] and the screen rendered by [HomeTab].

    Conventions.
    - A JavaScript object used as a dictionary ([flags]) is the list of its
      members in the order the engine enumerates them, read by key.
    - An optional field [f?: T] is an [option T]; a field [f?: T | null] is a
      [nullable T], which keeps [undefined] and [null] apart.
    - The score is an integer-valued JavaScript number; it is carried as [Z].
      Numbers that the screen never computes with ([confidence], [percent])
      are carried as binary64 floats.
    - Asynchronous code is written in a small monad over the session state and
      a log of the effects on the outside world; every awaited promise is
      answered by the [World] the scan runs in. A [useState] setter is a
      write to the session record. *)

From Stdlib Require Import ZArith Lia PrimFloat.
From stdpp Require Import base option list strings pretty.

#[local] Open Scope string_scope.
#[local] Open Scope Z_scope.

(** ** Data model *)

Inductive nullable (A : Type) : Type :=
| undefined
| null
| value (a : A).
Arguments undefined {A}.
Arguments null {A}.
Arguments value {A} a.

Record OcrLine := mkOcrLine {
  text : string;
  confidence : option float
}.

Record Ingredient := mkIngredient {
  ingredient_name : string;
  percent : nullable float
}.

Record Additive := mkAdditive {
  code : string;
  additive_name : nullable string
}.

(** [Record<string, boolean>]: the members of the object, in the order in
    which the engine enumerates them ([Object.entries]). A JavaScript object
    holds each key once; see [wellFormed]. *)
Record Flags := mkFlags {
  members : list (string * bool)
}.

(** [o[k]] on the members of [o]: the value stored under [k], if any. *)
Fixpoint getProperty (l : list (string * bool)) (k : string) : option bool :=
  match l with
  | [] => None
  | (k', v) :: l => if decide (k' = k) then Some v else getProperty l k
  end.

(** With these instances [o !! k] reads a flag and [∅] is the object [{}]. *)
#[global] Instance Flags_lookup : Lookup string bool Flags :=
  fun k o => getProperty (members o) k.
#[global] Instance Flags_empty : Empty Flags := mkFlags [].

(** No key occurs twice among the members. *)
Definition wellFormed (o : Flags) : Prop := NoDup (members o).*1.

Record Structured := mkStructured {
  ingredients : option (list Ingredient);
  allergens : option (list string);
  additives : option (list Additive);
  flags : option Flags
}.

(** ** Score engine *)

Module Score.

(** [s.flags?.k] used as a condition: the flag is present and true. *)
Definition flag (s : Structured) (k : string) : bool :=
  match flags s with
  | Some m => match m !! k with Some b => b | None => false end
  | None => false
  end.

(** [x || d] on a number that may be undefined: [0] and [undefined] are falsy. *)
Definition or_number (x : option Z) (d : Z) : Z :=
  match x with
  | Some n => if n =? 0 then d else n
  | None => d
  end.

(** [s.additives?.length || 0] *)
Definition additiveCount (s : Structured) : Z :=
  or_number ((fun l => Z.of_nat (length l)) <$> additives s) 0.

(** [Math.min(count * 2, 20)] *)
Definition additivePenalty (count : Z) : Z := Z.min (count * 2) 20.

Definition computeHealthScore (s : option Structured) : option Z :=
  match s with
  | None => None
  | Some s =>
      let score := 100 in
      let score := if flag s "palmOil" then score - 10 else score in
      let score := if flag s "addedSugar" then score - 15 else score in
      let score := if flag s "addedSalt" then score - 10 else score in
      let score := if flag s "msgLikeEnhancer" then score - 15 else score in
      let additivePenalty := additivePenalty (additiveCount s) in
      let score := score - additivePenalty in
      Some (Z.max 0 score)
  end.

End Score.

(** ** The outside world *)

Inductive PlatformOS := ios | android | windows | macos | web.

#[global] Instance PlatformOS_eq_dec : EqDecision PlatformOS.
Proof. solve_decision. Defined.

Inductive PermissionStatus := granted | denied | undetermined.

#[global] Instance PermissionStatus_eq_dec : EqDecision PermissionStatus.
Proof. solve_decision. Defined.

Record ImagePickerAsset := mkAsset { uri : string }.

(** [{ canceled: true, assets: null } | { canceled: false, assets: [...] }] *)
Inductive ImagePickerResult :=
| Canceled
| Picked (assets : list ImagePickerAsset).

(** A thrown value; [message] is what [e.message] reads. *)
Record JsError := mkError { message : option string }.

(** [new Error(msg)] *)
Definition Error (msg : string) : JsError := {| message := Some msg |}.

(** What awaiting a promise gives: its value, its rejection, or nothing yet
    (a promise that never settles). *)
Inductive Await (A : Type) : Type :=
| Resolved (a : A)
| Rejected (e : JsError)
| Unsettled.
Arguments Resolved {A} a.
Arguments Rejected {A} e.
Arguments Unsettled {A}.

Definition Blob := list Byte.byte.

(** One part of a multipart form: [form.append(field, blob, filename)] or
    [form.append(field, { uri, name, type })]. *)
Inductive FormValue :=
| BlobPart (blob : Blob) (filename : string)
| FilePart (file_uri file_name file_type : string).

Definition FormData := list (string * FormValue).

Record Request := mkRequest {
  url : string;
  method : string;
  body : option FormData
}.

(** A JSON value, for the parts of a response body the screen does not read. *)
#[local] Unset Elimination Schemes.
Inductive Json :=
| JNull
| JBool (b : bool)
| JNumber (x : float)
| JString (s : string)
| JArray (l : list Json)
| JObject (l : list (string * Json)).
#[local] Set Elimination Schemes.

(** The parsed body of an [/ocr] response, seen through the two properties
    the controller reads; [json_rest] holds every other top-level member. *)
Record ScanJson := mkScanJson {
  json_lines : nullable (list OcrLine);
  json_structured : nullable Structured;
  json_rest : list (string * Json)
}.

(** A fetch response. [resp_json] and [resp_blob] answer [resp.json()] and
    [resp.blob()]; a body that parses to [null] is [Resolved None]. *)
Record Response := mkResponse {
  status : N;
  resp_json : Await (option ScanJson);
  resp_blob : Await Blob
}.

(** [resp.ok]: the status is in the range 200-299. *)
Definition ok (resp : Response) : bool :=
  (200 <=? status resp)%N && (status resp <=? 299)%N.

(** Everything one scan attempt can ask of its environment. *)
Record World := mkWorld {
  Platform_OS : PlatformOS;
  requestCameraPermissions : Await PermissionStatus;
  launchImageLibrary : Await ImagePickerResult;
  launchCamera : Await ImagePickerResult;
  fetch : Request -> Await Response;
  (** the engine's TypeError for reading property [p] of [undefined] *)
  typeError : string -> JsError
}.

(** Effects on the outside world, in the order they happen. *)
Inductive Effect :=
| LaunchImageLibrary (allowsEditing : bool)
| RequestCameraPermissions
| LaunchCamera (quality : Z)
| Fetch (req : Request)
| Alert (title msg : string).

(** ** Session state and the monad of the controller *)

Record Session := mkSession {
  imageUri : option string;
  lines : list OcrLine;
  structured : option Structured;
  busy : bool
}.

Record Store := mkStore {
  session : Session;
  effects : list Effect
}.

Inductive Outcome (A : Type) : Type :=
| Returned (a : A) (st : Store)
| Threw (e : JsError) (st : Store)
| Suspended (st : Store).
Arguments Returned {A} a st.
Arguments Threw {A} e st.
Arguments Suspended {A} st.

Definition M (A : Type) : Type := Store -> Outcome A.

Definition ret {A} (a : A) : M A := fun st => Returned a st.

Definition bind {A B} (k : A -> M B) (m : M A) : M B :=
  fun st =>
    match m st with
    | Returned a st' => k a st'
    | Threw e st' => Threw e st'
    | Suspended st' => Suspended st'
    end.

(** With these instances [x ← m; k] and [m;; k] sequence two steps. *)
#[global] Instance M_ret : MRet M := @ret.
#[global] Instance M_bind : MBind M := @bind.

Definition throw {A} (e : JsError) : M A := fun st => Threw e st.

Definition await {A} (p : Await A) : M A :=
  fun st =>
    match p with
    | Resolved a => Returned a st
    | Rejected e => Threw e st
    | Unsettled => Suspended st
    end.

Definition perform (e : Effect) : M unit :=
  fun st => Returned tt {| session := session st; effects := effects st ++ [e] |}.

Definition update (f : Session -> Session) : M unit :=
  fun st => Returned tt {| session := f (session st); effects := effects st |}.

(** [try { m } catch (e) { h e }] *)
Definition try_catch {A} (m : M A) (h : JsError -> M A) : M A :=
  fun st =>
    match m st with
    | Threw e st' => h e st'
    | r => r
    end.

(** [try { m } finally { f }]: [f] runs when [m] returns and when it throws;
    the completion of [m] is kept unless [f] itself throws. *)
Definition try_finally {A} (m : M A) (f : M unit) : M A :=
  fun st =>
    match m st with
    | Returned a st' => (f;; ret a) st'
    | Threw e st' => (f;; throw e) st'
    | Suspended st' => Suspended st'
    end.

(** The four [useState] setters. *)
Definition setImageUri (v : option string) : M unit :=
  update (fun s => {| imageUri := v; lines := lines s;
                      structured := structured s; busy := busy s |}).
Definition setLines (v : list OcrLine) : M unit :=
  update (fun s => {| imageUri := imageUri s; lines := v;
                      structured := structured s; busy := busy s |}).
Definition setStructured (v : option Structured) : M unit :=
  update (fun s => {| imageUri := imageUri s; lines := lines s;
                      structured := v; busy := busy s |}).
Definition setBusy (v : bool) : M unit :=
  update (fun s => {| imageUri := imageUri s; lines := lines s;
                      structured := structured s; busy := v |}).

(** ** Backend client and session controller *)

Module Scan.

Definition BACKEND_URL (w : World) : string :=
  if decide (Platform_OS w = web) then "http://127.0.0.1:8000"
  else "http://192.168.1.35:8000".

(** [fetch(url, init)], logged before it is awaited. *)
Definition doFetch (w : World) (req : Request) : M Response :=
  perform (Fetch req);; await (fetch w req).

(** The template literal [`Server error: ${resp.status}`]. *)
Definition serverErrorMessage (s : N) : string := "Server error: " +:+ pretty s.

(** The request [fetch(`${BACKEND_URL}/ocr`, { method: "POST", body: form })]. *)
Definition ocrRequest (w : World) (form : FormData) : Request :=
  {| url := BACKEND_URL w +:+ "/ocr"; method := "POST"; body := Some form |}.

Definition uploadToBackend (w : World) (form : FormData) : M (option ScanJson) :=
  resp ← doFetch w (ocrRequest w form);
  if negb (ok resp) then throw (Error (serverErrorMessage (status resp)))
  else await (resp_json resp).

(** [json?.p] for a property holding an array or an object. *)
Definition optChain {A} (json : option ScanJson) (p : ScanJson -> nullable A)
  : nullable A :=
  match json with
  | Some j => p j
  | None => undefined
  end.

(** [x || d] where [x], when it is a value, is an array or an object (always
    truthy); [undefined] and [null] are falsy. *)
Definition orElse {A B} (x : nullable A) (inj : A -> B) (d : B) : B :=
  match x with
  | value a => inj a
  | undefined | null => d
  end.

(** [e.message || "Unknown error"]: an absent or empty message is falsy. *)
Definition messageOr (e : JsError) (d : string) : string :=
  match message e with
  | Some "" | None => d
  | Some m => m
  end.

(** Lines 54-61: the platform's way of getting a picture. *)
Definition acquire (w : World) : M ImagePickerResult :=
  if decide (Platform_OS w = web) then
    perform (LaunchImageLibrary false);; await (launchImageLibrary w)
  else
    status ← (perform RequestCameraPermissions;;
              await (requestCameraPermissions w));
    if decide (status ≠ granted) then throw (Error "Camera permission denied")
    else perform (LaunchCamera 1);; await (launchCamera w).

(** Lines 69-79: the multipart form for the picked asset. *)
Definition buildForm (w : World) (asset : ImagePickerAsset) : M FormData :=
  if decide (Platform_OS w = web) then
    resp ← doFetch w {| url := uri asset; method := "GET"; body := None |};
    blob ← await (resp_blob resp);
    mret [("file", BlobPart blob "photo.jpg")]
  else
    mret [("file", FilePart (uri asset) "photo.jpg" "image/jpeg")].

(** The body of the [try] block, lines 52-83. *)
Definition scanBody (w : World) : M unit :=
  result ← acquire w;
  match result with
  | Canceled => mret tt
  | Picked assets =>
      asset ← match assets !! 0%nat with
              | Some a => mret a
              | None => throw (typeError w "uri")
              end;
      setImageUri (Some (uri asset));;
      form ← buildForm w asset;
      json ← uploadToBackend w form;
      setLines (orElse (optChain json json_lines) id []);;
      setStructured (orElse (optChain json json_structured) Some None)
  end.

Definition pickAndScan (w : World) : M unit :=
  setLines [];;
  setStructured None;;
  setBusy true;;
  try_finally
    (try_catch (scanBody w)
       (fun e => perform (Alert "OCR failed" (messageOr e "Unknown error"))))
    (setBusy false).

(** The props [HomeTab] gives its [Button] (line 95). *)
Record ButtonProps := mkButton {
  title : string;
  onPress : M unit;
  disabled : bool
}.

Definition scanButton (w : World) (s : Session) : ButtonProps :=
  {| title := if busy s then "Scanning..." else "Scan Image";
     onPress := pickAndScan w;
     disabled := busy s |}.

(** A press on a React Native [Button]: a disabled button does not call
    its [onPress]. *)
Definition press (b : ButtonProps) : M unit :=
  if disabled b then mret tt else onPress b.

(** The user presses the scan button of the screen as currently rendered. *)
Definition pressScan (w : World) : M unit :=
  fun st => press (scanButton w (session st)) st.

End Scan.

(** ** Observations on a run *)

Definition final {A} (r : Outcome A) : Store :=
  match r with
  | Returned _ st | Threw _ st | Suspended st => st
  end.

Definition isAlert (e : Effect) : bool :=
  match e with Alert _ _ => true | _ => false end.

Definition isUpload (e : Effect) : bool :=
  match e with
  | Fetch {| method := "POST" |} => true
  | _ => false
  end.

(** The upload requests among the effects of a store. *)
Definition uploads (st : Store) : list Effect :=
  filter (fun e => isUpload e = true) (effects st).

(** The store once [pickAndScan] has run its first three statements. *)
Definition started (st : Store) : Store :=
  {| session := {| imageUri := imageUri (session st); lines := [];
                   structured := None; busy := true |};
     effects := effects st |}.

(** No promise the scan may await in [w] stays unsettled. *)
Definition responsive (w : World) : Prop :=
  requestCameraPermissions w ≠ Unsettled ∧
  launchImageLibrary w ≠ Unsettled ∧
  launchCamera w ≠ Unsettled ∧
  ∀ req, match fetch w req with
         | Resolved resp => resp_json resp ≠ Unsettled ∧ resp_blob resp ≠ Unsettled
         | Rejected _ => True
         | Unsettled => False
         end.

(** ** Scenarios

    What the world must answer for a scan to take a given path. *)

Module Path.
Import Scan.

(** The capture step ends with picker result [r]: on the web the library
    picker resolves to it; elsewhere the camera permission is granted and
    the camera resolves to it. *)
Definition captureGives (w : World) (r : ImagePickerResult) : Prop :=
  if decide (Platform_OS w = web) then launchImageLibrary w = Resolved r
  else requestCameraPermissions w = Resolved granted ∧
       launchCamera w = Resolved r.

(** What a capture that gets an answer does to the outside world. *)
Definition captureEffects (w : World) : list Effect :=
  if decide (Platform_OS w = web) then [LaunchImageLibrary false]
  else [RequestCameraPermissions; LaunchCamera 1].

(** The encoding step succeeds with [form]: on the web the asset's URI is
    fetched and read as a blob; elsewhere the URI is attached as it is. *)
Definition encodeGives (w : World) (asset : ImagePickerAsset) (form : FormData)
  : Prop :=
  if decide (Platform_OS w = web) then
    ∃ resp blob,
      fetch w {| url := uri asset; method := "GET"; body := None |} = Resolved resp ∧
      resp_blob resp = Resolved blob ∧
      form = [("file", BlobPart blob "photo.jpg")]
  else form = [("file", FilePart (uri asset) "photo.jpg" "image/jpeg")].

(** The first picked asset is encoded as [form], and the upload of [form]
    gets the response [resp]. *)
Definition uploadAnswered (w : World) (asset : ImagePickerAsset)
    (form : FormData) (resp : Response) : Prop :=
  ∃ rest,
    captureGives w (Picked (asset :: rest)) ∧
    encodeGives w asset form ∧
    fetch w (ocrRequest w form) = Resolved resp.

End Path.

(** ** The response fields as the specification words them *)

Module Fields.

(** [lines], "defaulted to an empty sequence if absent" *)
Definition linesOrEmpty (f : nullable (list OcrLine)) : list OcrLine :=
  match f with
  | value l => l
  | undefined | null => []
  end.

(** [structured], "defaulted to absent if absent" or null *)
Definition structuredOrAbsent (f : nullable Structured) : option Structured :=
  match f with
  | value s => Some s
  | undefined | null => None
  end.

End Fields.

(** ** The score as the specification words it *)

Module Table.

(** The keys of the penalty table. *)
Definition scored : list string :=
  ["palmOil"; "addedSugar"; "addedSalt"; "msgLikeEnhancer"].

(** "flag [k] is present and true" *)
Definition isTrue (s : Structured) (k : string) : Prop :=
  flags s ≫= (.!! k) = Some true.

#[global] Instance isTrue_dec s k : Decision (isTrue s k).
Proof. unfold isTrue. apply _. Defined.

(** The number of additives, none when the sequence is absent. *)
Definition count (s : Structured) : Z :=
  Z.of_nat (length (default [] (additives s))).

(** The penalties of the flags that are present and true, by the table
    [palmOil -> -10], [addedSugar -> -15], [addedSalt -> -10],
    [msgLikeEnhancer -> -15]. *)
Definition flagPenalty (s : Structured) : Z :=
  (if decide (isTrue s "palmOil") then 10 else 0) +
  (if decide (isTrue s "addedSugar") then 15 else 0) +
  (if decide (isTrue s "addedSalt") then 10 else 0) +
  (if decide (isTrue s "msgLikeEnhancer") then 15 else 0).

(** [max(0, 100 - flag penalties - min(2 * additive_count, 20))] *)
Definition tableScore (s : Structured) : Z :=
  Z.max 0 (100 - flagPenalty s - Z.min (2 * count s) 20).

(** [s'] is [s] in another order: its additives are those of [s] permuted,
    and its flags object holds the members of that of [s], enumerated in
    any other order (as when the object is rebuilt by inserting its entries
    in another order). An absent sequence or object stays absent. Nothing is
    asked of ingredients and allergens. *)
Definition reordered (s s' : Structured) : Prop :=
  option_Forall2 (fun l l' => l ≡ₚ l') (additives s) (additives s') ∧
  option_Forall2 (fun o o' => wellFormed o ∧ members o ≡ₚ members o')
                 (flags s) (flags s').

(** [s] with its additives taken away. *)
Definition withoutAdditives (s : Structured) : Structured :=
  {| ingredients := ingredients s; allergens := allergens s;
     additives := None; flags := flags s |}.

End Table.

(** ** Sample inputs *)

Module Samples.

Definition tenAdditives : list Additive :=
  replicate 10 (mkAdditive "E621" null).

(** Every scored flag set and ten additives. *)
Definition worstCase : Structured :=
  mkStructured None None (Some tenAdditives)
    (Some (mkFlags
             [("palmOil", true); ("addedSugar", true); ("addedSalt", true);
              ("msgLikeEnhancer", true)])).

Definition sugarLine : OcrLine := mkOcrLine "SUGAR" None.

Definition photo : ImagePickerAsset := mkAsset "blob:photo-1".

Definition noSuchProperty (p : string) : JsError :=
  Error ("Cannot read properties of undefined (reading '" +:+ p +:+ "')").

(** A browser in which the user picks [photo] and every request gets the
    response [resp]. *)
Definition browser (resp : Response) : World :=
  {| Platform_OS := web;
     requestCameraPermissions := Resolved granted;
     launchImageLibrary := Resolved (Picked [photo]);
     launchCamera := Resolved Canceled;
     fetch := fun _ => Resolved resp;
     typeError := noSuchProperty |}.

(** A phone on which the camera is granted and the user takes [photo]. *)
Definition phone (resp : Response) : World :=
  {| Platform_OS := android;
     requestCameraPermissions := Resolved granted;
     launchImageLibrary := Resolved Canceled;
     launchCamera := Resolved (Picked [photo]);
     fetch := fun _ => Resolved resp;
     typeError := noSuchProperty |}.

(** A phone on which the user dismisses the camera. *)
Definition dismissed : World :=
  {| Platform_OS := ios;
     requestCameraPermissions := Resolved granted;
     launchImageLibrary := Resolved Canceled;
     launchCamera := Resolved Canceled;
     fetch := fun _ => Rejected (Error "Network request failed");
     typeError := noSuchProperty |}.

(** The body [{"lines": [{"text": "SUGAR"}], "structured": null,
    "engine": "tesseract"}]. *)
Definition okBody : ScanJson :=
  {| json_lines := value [sugarLine];
     json_structured := null;
     json_rest := [("engine", JString "tesseract")] |}.

Definition okResponse : Response :=
  {| status := 200; resp_json := Resolved (Some okBody); resp_blob := Resolved [] |}.



Definition failedResponse : Response :=
  {| status := 500;
     resp_json := Rejected (Error "Unexpected token < in JSON");
     resp_blob := Resolved [] |}.


(** A fresh session. *)
Definition idle : Store :=
  {| session := mkSession None [] None false; effects := [] |}.

(** A browser in which the upload never gets an answer. *)
Definition stalled : World :=
  {| Platform_OS := web;
     requestCameraPermissions := Resolved granted;
     launchImageLibrary := Resolved (Picked [photo]);
     launchCamera := Resolved Canceled;
     fetch := fun req => if decide (method req = "GET") then Resolved okResponse
                         else Unsettled;
     typeError := noSuchProperty |}.

(** The session in the middle of a scan: the photo is taken, the upload is
    in flight. *)
Definition scanning : Store := final (Scan.pickAndScan stalled idle).

(** A phone on which the user refuses the camera. *)
Definition refused : World :=
  {| Platform_OS := android;
     requestCameraPermissions := Resolved denied;
     launchImageLibrary := Resolved Canceled;
     launchCamera := Resolved (Picked [photo]);
     fetch := fun _ => Resolved okResponse;
     typeError := noSuchProperty |}.

(** A phone without network: every request is rejected with [e]. *)
Definition offline (e : JsError) : World :=
  {| Platform_OS := ios;
     requestCameraPermissions := Resolved granted;
     launchImageLibrary := Resolved Canceled;
     launchCamera := Resolved (Picked [photo]);
     fetch := fun _ => Rejected e;
     typeError := noSuchProperty |}.

(** A browser whose picker answers with no asset at all. *)
Definition noAsset : World :=
  {| Platform_OS := web;
     requestCameraPermissions := Resolved granted;
     launchImageLibrary := Resolved (Picked []);
     launchCamera := Resolved Canceled;
     fetch := fun _ => Resolved okResponse;
     typeError := noSuchProperty |}.

End Samples.

(** ** The cost of one flag *)

Module Penalty.

(** What [computeHealthScore] subtracts for flag [k] when it is true
    (lines 26-29); a flag it does not test costs nothing. *)
Definition penalty (k : string) : Z :=
  if decide (k = "palmOil") then 10
  else if decide (k = "addedSugar") then 15
  else if decide (k = "addedSalt") then 10
  else if decide (k = "msgLikeEnhancer") then 15
  else 0.

End Penalty.

(** ** Failing scenarios *)

Module Failure.
Import Scan Path.

(** Off the web, the camera permission comes back as [status], which is not
    [granted]. *)
Definition permissionRefused (w : World) (status : PermissionStatus) : Prop :=
  Platform_OS w ≠ web ∧
  requestCameraPermissions w = Resolved status ∧
  status ≠ granted.

(** What encoding the asset does to the outside world when it succeeds. *)
Definition encodeEffects (w : World) (asset : ImagePickerAsset) : list Effect :=
  if decide (Platform_OS w = web) then
    [Fetch {| url := uri asset; method := "GET"; body := None |}]
  else [].

(** The first picked asset is encoded as [form] and its upload fails with
    [e]: the request is rejected, or its response has a success status and a
    body that cannot be read as JSON. *)
Definition uploadFails (w : World) (asset : ImagePickerAsset) (form : FormData)
    (e : JsError) : Prop :=
  ∃ rest,
    captureGives w (Picked (asset :: rest)) ∧
    encodeGives w asset form ∧
    (fetch w (ocrRequest w form) = Rejected e ∨
     ∃ resp, fetch w (ocrRequest w form) = Resolved resp ∧
             ok resp = true ∧ resp_json resp = Rejected e).

(** The form value of an upload of the asset at [asset_uri]: on the web the
    bytes fetched from that URI, as a blob named [photo.jpg]; elsewhere the
    URI itself with a fixed name and type. *)
Definition isPhotoPart (w : World) (asset_uri : string) (v : FormValue) : Prop :=
  match v with
  | BlobPart blob filename =>
      Platform_OS w = web ∧ filename = "photo.jpg" ∧
      ∃ resp, fetch w {| url := asset_uri; method := "GET"; body := None |} =
                Resolved resp ∧
              resp_blob resp = Resolved blob
  | FilePart u n t =>
      Platform_OS w ≠ web ∧ u = asset_uri ∧ n = "photo.jpg" ∧ t = "image/jpeg"
  end.

(** Two outcomes that differ at most in the effects logged. *)
Definition sameSession {A} (r1 r2 : Outcome A) : Prop :=
  match r1, r2 with
  | Returned a st1, Returned b st2 => a = b ∧ session st1 = session st2
  | Threw e st1, Threw e' st2 => e = e' ∧ session st1 = session st2
  | Suspended st1, Suspended st2 => session st1 = session st2
  | _, _ => False
  end.

(** A computation that reads the session only, never the log. *)
Definition logBlind {A} (m : M A) : Prop :=
  ∀ st1 st2, session st1 = session st2 → sameSession (m st1) (m st2).

End Failure.

(** ** Presentation: what [HomeTab] returns (lines 91-161)

    The element tree is kept as far as the screen's content goes: fragments
    are flattened into their parent's children, a child that is [null] or
    [false] is left out, [key] props and fixed styles of containers are
    dropped. Strings are byte strings, so the dash of line 134 is its UTF-8
    encoding.

    One thing the engine decides is a parameter: [toString], the decimal
    text of a number in a template literal. [Object.entries] of a flags
    object is the list of its members. *)

Module Screen.
Import Scan.


#[local] Unset Elimination Schemes.
#[local] Set Elimination Schemes.

(** [xs.join(sep)] on an array of strings. *)
Definition join (sep : string) (xs : list string) : string :=
  String.concat sep xs.



(** Lines 142-144: the keys of the flags that are true. *)
Definition shownFlags (r : Structured) : list string :=
  (filter (fun kv => kv.2 = true) (members (default ∅ (flags r)))).*1.

(** Lines 142-145: the keys joined, or ["none"] when that text is empty. *)
Definition flagsText (r : Structured) : string :=
  let t := join ", " (shownFlags r) in
  if decide (t = "") then "none" else t.






End Screen.

(** * Properties *)

Module ScoreSpec.
Import Score Table Samples.

Ltac in_scored :=
  unfold scored;
  repeat first [apply list_elem_of_here | apply list_elem_of_further].

Lemma flag_true s k : flag s k = true ↔ isTrue s k.
Proof.
  unfold flag, isTrue. destruct (flags s) as [m|]; simpl; [|done].
  destruct (m !! k) as [[]|]; split; (done || discriminate).
Qed.

Lemma decide_isTrue s k (p : Z) :
  (if decide (isTrue s k) then p else 0) = if flag s k then p else 0.
Proof.
  destruct (flag s k) eqn:E; case_decide as Hd; try done.
  - destruct Hd. by apply flag_true.
  - apply flag_true in Hd. congruence.
Qed.

Lemma additiveCount_count s : additiveCount s = count s.
Proof.
  unfold additiveCount, count, or_number.
  destruct (additives s) as [l|]; simpl; [|done].
  destruct (Z.eqb_spec (Z.of_nat (length l)) 0); lia.
Qed.

Lemma computeHealthScore_table s :
  computeHealthScore (Some s) = Some (tableScore s).
Proof.
  unfold computeHealthScore, tableScore, flagPenalty, additivePenalty.
  rewrite additiveCount_count, !decide_isTrue.
  repeat match goal with |- context [flag s ?k] => destruct (flag s k) end;
    f_equal; lia.
Qed.

Lemma flagPenalty_bounds s : 0 ≤ flagPenalty s ≤ 50.
Proof. unfold flagPenalty. repeat case_decide; lia. Qed.

Lemma count_nonneg s : 0 ≤ count s.
Proof. unfold count. lia. Qed.

Lemma flagPenalty_agree s s' :
  (∀ k, k ∈ scored → flags s ≫= (.!! k) = flags s' ≫= (.!! k)) →
  flagPenalty s = flagPenalty s'.
Proof.
  intros Hagree. unfold flagPenalty.
  repeat match goal with
    |- context [decide (isTrue s ?k)] =>
      rewrite (decide_ext (isTrue s k) (isTrue s' k))
        by (unfold isTrue; rewrite (Hagree k) by in_scored; done)
    end.
  done.
Qed.

Lemma getProperty_elem l k v :
  NoDup l.*1 → getProperty l k = Some v ↔ (k, v) ∈ l.
Proof.
  induction l as [|[k' v'] l IH]; simpl; intros Hnd.
  - split; [done|]. intros Hin. by apply elem_of_nil in Hin.
  - apply NoDup_cons in Hnd as [Hnin Hnd]. case_decide as Hk.
    + subst k'. split.
      * intros [= ->]. apply list_elem_of_here.
      * intros Hin. apply elem_of_cons in Hin as [[= ->]|Hin]; [done|].
        destruct Hnin. apply list_elem_of_fmap. by exists (k, v).
    + rewrite (IH Hnd). split.
      * intros Hin. by apply list_elem_of_further.
      * intros Hin. apply elem_of_cons in Hin as [[= -> ->]|Hin]; done.
Qed.

Lemma getProperty_perm l l' k :
  NoDup l.*1 → l ≡ₚ l' → getProperty l k = getProperty l' k.
Proof.
  intros Hnd Hp. apply option_eq. intros v.
  rewrite !getProperty_elem; [by rewrite Hp| |done].
  by rewrite <- Hp.
Qed.

Lemma tableScore_agree s s' :
  (∀ k, k ∈ scored → flags s ≫= (.!! k) = flags s' ≫= (.!! k)) →
  count s = count s' →
  tableScore s = tableScore s'.
Proof.
  intros Hf Hc. unfold tableScore. by rewrite (flagPenalty_agree s s' Hf), Hc.
Qed.

(** C1. [computeHealthScore] of an absent result is absent; of a present
    result it is the table score
    [max(0, 100 - 10[palmOil] - 15[addedSugar] - 10[addedSalt]
            - 15[msgLikeEnhancer] - min(2 * additives.length, 20))],
    an integer between 0 and 100; and two results that agree on the four
    scored flags and on the additives have the same score, whatever their
    other flags are. *)
Theorem computeHealthScore_formula :
  computeHealthScore None = None ∧
  (∀ s, computeHealthScore (Some s) = Some (tableScore s) ∧
        0 ≤ tableScore s ≤ 100) ∧
  (∀ ings algs adds (f f' : option Flags),
     (∀ k, k ∈ scored → f ≫= (.!! k) = f' ≫= (.!! k)) →
     computeHealthScore (Some (mkStructured ings algs adds f)) =
     computeHealthScore (Some (mkStructured ings algs adds f'))).
Proof.
  split; [done|]. split.
  - intros s. split; [apply computeHealthScore_table|].
    unfold tableScore. pose proof (flagPenalty_bounds s). pose proof (count_nonneg s).
    lia.
  - intros ings algs adds f f' H. rewrite !computeHealthScore_table.
    unfold tableScore.
    by rewrite (flagPenalty_agree (mkStructured ings algs adds f)
                  (mkStructured ings algs adds f') H).
Qed.

(** An unscored flag ([vegan]) added to a result leaves the score at 85. *)
Lemma computeHealthScore_formula_witness :
  computeHealthScore
    (Some (mkStructured None None None (Some (mkFlags [("addedSugar", true)])))) =
  computeHealthScore
    (Some (mkStructured None None None
             (Some (mkFlags [("vegan", true); ("addedSugar", true)])))).
Proof.
  apply (proj2 (proj2 computeHealthScore_formula)).
  intros k Hk. unfold scored in Hk.
  repeat (apply elem_of_cons in Hk as [->|Hk]; [reflexivity|]).
  by apply elem_of_nil in Hk.
Defined.

(** C3 (as amended). With the four scored flags true and at least ten
    additives the score is exactly 30, that is 100 - 10 - 15 - 10 - 15 - 20. *)
Theorem all_flags_ten_additives s l :
  (∀ k, k ∈ scored → isTrue s k) →
  additives s = Some l →
  (10 ≤ length l)%nat →
  computeHealthScore (Some s) = Some 30.
Proof.
  intros Hf Hl Hlen. rewrite computeHealthScore_table. f_equal.
  unfold tableScore, flagPenalty, count. rewrite Hl. simpl.
  rewrite !decide_True by (apply Hf; in_scored). lia.
Qed.

Lemma all_flags_ten_additives_witness :
  computeHealthScore (Some worstCase) = Some 30.
Proof.
  apply (all_flags_ten_additives worstCase tenAdditives).
  - intros k Hk. unfold scored in Hk.
    repeat (apply elem_of_cons in Hk as [->|Hk]; [reflexivity|]).
    by apply elem_of_nil in Hk.
  - reflexivity.
  - simpl. lia.
Defined.

(** C3 as stated fails: with the four scored flags true and ten additives
    the score is not 10. *)
Lemma worstCase_scores_30_not_10 :
  (∀ k, k ∈ scored → isTrue worstCase k) ∧
  additives worstCase = Some tenAdditives ∧
  (10 ≤ length tenAdditives)%nat ∧
  computeHealthScore (Some worstCase) = Some 30 ∧
  computeHealthScore (Some worstCase) ≠ Some 10.
Proof.
  split; [|by repeat split].
  intros k Hk. unfold scored in Hk.
  repeat (apply elem_of_cons in Hk as [->|Hk]; [reflexivity|]).
  by apply elem_of_nil in Hk.
Qed.

(** C8. The score of a present result does not depend on the order of its
    additives nor on the order in which its flags object lists (was given)
    its members: a result and the same result in another order, be the
    additives and the flags present or absent, have the same score. *)
Theorem score_order_independent s s' :
  reordered s s' →
  computeHealthScore (Some s) = computeHealthScore (Some s').
Proof.
  intros [Ha Hf]. rewrite !computeHealthScore_table. f_equal.
  apply tableScore_agree.
  - intros k _. destruct Hf as [o o' [Hwf Hp]|]; simpl; [|done].
    by apply getProperty_perm.
  - unfold count. destruct Ha as [l l' Hp|]; simpl; [|done].
    by rewrite (Permutation_length Hp).
Qed.

Lemma score_order_independent_witness :
  computeHealthScore
    (Some (mkStructured None None
             (Some [mkAdditive "E621" null; mkAdditive "E330" (value "citric acid")])
             (Some (mkFlags [("palmOil", true); ("addedSalt", false)])))) =
  computeHealthScore
    (Some (mkStructured None None
             (Some [mkAdditive "E330" (value "citric acid"); mkAdditive "E621" null])
             (Some (mkFlags [("addedSalt", false); ("palmOil", true)])))).
Proof.
  apply score_order_independent. split; constructor.
  - apply perm_swap.
  - split; [|apply perm_swap].
    unfold wellFormed. simpl. apply NoDup_cons. split; [|apply NoDup_singleton].
    intros Hin. apply list_elem_of_singleton in Hin. discriminate.
Defined.

(** C9. The additive penalty [computeHealthScore] applies is non-decreasing
    in the number of additives and never above 20; it is 0 for no additive,
    20 for ten and 20 for fifty. It is what the score of a result loses
    against the same result without additives, at the length of its
    additives. *)
Theorem additivePenalty_monotone_capped :
  (∀ m n, m ≤ n → additivePenalty m ≤ additivePenalty n) ∧
  (∀ n, additivePenalty n ≤ 20) ∧
  additivePenalty 0 = 0 ∧ additivePenalty 10 = 20 ∧ additivePenalty 50 = 20 ∧
  (∀ s, ∃ base,
     computeHealthScore (Some (withoutAdditives s)) = Some base ∧
     computeHealthScore (Some s) =
     Some (base - additivePenalty (Z.of_nat (length (default [] (additives s)))))) ∧
  (∀ s s' v v',
     flags s = flags s' →
     (length (default [] (additives s)) ≤ length (default [] (additives s')))%nat →
     computeHealthScore (Some s) = Some v →
     computeHealthScore (Some s') = Some v' →
     v' ≤ v).
Proof.
  split; [unfold additivePenalty; lia|].
  split; [unfold additivePenalty; lia|].
  do 3 (split; [reflexivity|]).
  split.
  - intros s. exists (tableScore (withoutAdditives s)).
    rewrite !computeHealthScore_table. split; [done|]. f_equal.
    unfold tableScore, additivePenalty, count. simpl.
    change (flagPenalty (withoutAdditives s)) with (flagPenalty s).
    pose proof (flagPenalty_bounds s) as Hb. lia.
  - intros s s' v v' Hf Hlen. rewrite !computeHealthScore_table.
    intros [= <-] [= <-]. unfold tableScore, count.
    assert (flagPenalty s = flagPenalty s') as ->; [|lia].
    apply flagPenalty_agree. intros k _. by rewrite Hf.
Qed.

(** With the flags of the worst case, three additives give 44 and seven
    give 36. *)
Lemma additivePenalty_monotone_capped_witness :
  additivePenalty 3 ≤ additivePenalty 7 ∧
  36 ≤ 44.
Proof.
  split.
  - apply (proj1 additivePenalty_monotone_capped). lia.
  - apply (proj2 (proj2 (proj2 (proj2 (proj2 (proj2
             additivePenalty_monotone_capped)))))
             (mkStructured None None (Some (replicate 3 (mkAdditive "E621" null)))
                (flags worstCase))
             (mkStructured None None (Some (replicate 7 (mkAdditive "E621" null)))
                (flags worstCase))
             44 36).
    + reflexivity.
    + simpl. lia.
    + reflexivity.
    + reflexivity.
Defined.

(** C10. The score of a present result is at least 30, and it is the
    running total itself: clamping at 0 changes nothing. *)
Theorem computeHealthScore_at_least_30 s :
  ∃ v, computeHealthScore (Some s) = Some v ∧ 30 ≤ v ∧
       v = 100 - flagPenalty s - additivePenalty (additiveCount s).
Proof.
  exists (tableScore s). split; [apply computeHealthScore_table|].
  unfold tableScore, additivePenalty. rewrite additiveCount_count.
  pose proof (flagPenalty_bounds s). lia.
Qed.

End ScoreSpec.

Module ScanSpec.
Import Scan Path Fields Samples.

(** *** Running the monad *)

Ltac run :=
  unfold pickAndScan, scanBody, acquire, buildForm, uploadToBackend, doFetch,
    try_finally, try_catch, setImageUri, setLines, setStructured, setBusy,
    update, perform, await, throw, mbind, M_bind, bind, mret, M_ret, ret;
  simpl.

Lemma pickAndScan_started w st :
  pickAndScan w st =
  try_finally
    (try_catch (scanBody w)
       (fun e => perform (Alert "OCR failed" (messageOr e "Unknown error"))))
    (setBusy false) (started st).
Proof. reflexivity. Qed.

Lemma acquire_gives w r st :
  captureGives w r →
  acquire w st = Returned r (mkStore (session st) (effects st ++ captureEffects w)).
Proof.
  unfold captureGives, captureEffects. run. case_decide.
  - by intros ->.
  - intros [-> ->]. simpl. by rewrite <- app_assoc.
Qed.

Lemma buildForm_gives w asset form st :
  encodeGives w asset form →
  ∃ log, buildForm w asset st = Returned form (mkStore (session st) (effects st ++ log)) ∧
         Forall (fun e => isAlert e = false) log.
Proof.
  unfold encodeGives. run. case_decide.
  - intros (resp & blob & -> & -> & ->). eexists. split; [reflexivity|].
    by repeat constructor.
  - intros ->. exists []. rewrite app_nil_r. destruct st. by split.
Qed.

(** The store when the upload is about to be answered. *)
Lemma scanBody_upload w asset form resp st :
  uploadAnswered w asset form resp →
  ∃ log,
    Forall (fun e => isAlert e = false) log ∧
    scanBody w st =
    (json ← (if negb (ok resp) then throw (Error (serverErrorMessage (status resp)))
             else await (resp_json resp));
     setLines (orElse (optChain json json_lines) id []);;
     setStructured (orElse (optChain json json_structured) Some None))
      (mkStore {| imageUri := Some (uri asset); lines := lines (session st);
                  structured := structured (session st);
                  busy := busy (session st) |}
               (effects st ++ log)).
Proof.
  intros (rest & Hc & He & Hf).
  unfold captureGives, encodeGives in *. run. case_decide.
  - destruct He as (r & blob & Hr & Hb & ->). rewrite Hc. simpl.
    rewrite Hr. simpl. rewrite Hb. simpl. rewrite Hf. simpl.
    eexists. split; [|rewrite <- !app_assoc; reflexivity].
    by repeat constructor.
  - destruct Hc as [Hp Hc]. subst form. rewrite Hp. simpl. rewrite Hc. simpl.
    rewrite Hf. simpl.
    eexists. split; [|rewrite <- !app_assoc; reflexivity].
    by repeat constructor.
Qed.

Lemma messageOr_serverError n d :
  messageOr (Error (serverErrorMessage n)) d = serverErrorMessage n.
Proof. reflexivity. Qed.

Example serverErrorMessage_500 : serverErrorMessage 500 = "Server error: 500".
Proof. reflexivity. Qed.

(** C6. When the upload is answered with a non-success status [s],
    [uploadToBackend] throws an error whose message is "Server error: "
    followed by [s] in decimal; the scan then shows one alert, titled
    "OCR failed", with exactly that message, and ends with [busy] false. *)
Theorem server_error_alert w st asset form resp :
  uploadAnswered w asset form resp →
  ok resp = false →
  (∀ st0, uploadToBackend w form st0 =
          Threw (Error ("Server error: " +:+ pretty (status resp)))
                (mkStore (session st0) (effects st0 ++ [Fetch (ocrRequest w form)]))) ∧
  ∃ st' log,
    pickAndScan w st = Returned tt st' ∧
    busy (session st') = false ∧
    effects st' =
      (effects st ++ log ++
       [Alert "OCR failed" ("Server error: " +:+ pretty (status resp))])%list ∧
    Forall (fun e => isAlert e = false) log.
Proof.
  intros Hup Hok. split.
  - intros st0. destruct Hup as (_ & _ & _ & Hf). run.
    rewrite Hf. simpl. by rewrite Hok.
  - destruct (scanBody_upload w asset form resp (started st) Hup) as (log & Hlog & Hrun).
    rewrite pickAndScan_started. unfold try_finally, try_catch.
    rewrite Hrun, Hok. run.
    eexists _, log. repeat split; [|done].
    by rewrite <- app_assoc.
Qed.

Lemma server_error_alert_witness :
  ∃ st' log,
    pickAndScan (phone failedResponse) idle = Returned tt st' ∧
    busy (session st') = false ∧
    effects st' =
      (effects idle ++ log ++ [Alert "OCR failed" "Server error: 500"])%list ∧
    Forall (fun e => isAlert e = false) log.
Proof.
  refine (proj2 (server_error_alert (phone failedResponse) idle photo
                   [("file", FilePart "blob:photo-1" "photo.jpg" "image/jpeg")]
                   failedResponse _ _)).
  - exists []. repeat split; reflexivity.
  - reflexivity.
Defined.

(** C7. When the upload succeeds with parsed body [json], the scan ends with
    [lines] the body's [lines] member, or the empty sequence when the body
    has none, and [structured] the body's [structured] member, or absent
    when the body has none or it is null; no other member of the body
    appears in the resulting session. *)
Theorem upload_success_fields w st asset form resp json :
  uploadAnswered w asset form resp →
  ok resp = true →
  resp_json resp = Resolved json →
  ∃ st',
    pickAndScan w st = Returned tt st' ∧
    session st' =
      {| imageUri := Some (uri asset);
         lines := match json with
                  | Some j => linesOrEmpty (json_lines j)
                  | None => []
                  end;
         structured := match json with
                       | Some j => structuredOrAbsent (json_structured j)
                       | None => None
                       end;
         busy := false |}.
Proof.
  intros Hup Hok Hjson.
  destruct (scanBody_upload w asset form resp (started st) Hup) as (log & Hlog & Hrun).
  rewrite pickAndScan_started. unfold try_finally, try_catch.
  rewrite Hrun, Hok, Hjson. run.
  eexists. split; [reflexivity|]. simpl.
  destruct json as [[[] [] ?]|]; reflexivity.
Qed.

Lemma upload_success_fields_witness :
  ∃ st',
    pickAndScan (browser okResponse) idle = Returned tt st' ∧
    session st' =
      {| imageUri := Some "blob:photo-1"; lines := [sugarLine];
         structured := None; busy := false |}.
Proof.
  refine (upload_success_fields (browser okResponse) idle photo
            [("file", BlobPart [] "photo.jpg")] okResponse (Some okBody) _ _ _).
  - exists []. split; [reflexivity|]. split; [|reflexivity].
    exists okResponse, []. repeat split; reflexivity.
  - reflexivity.
  - reflexivity.
Defined.

(** C5. When the capture step reports cancellation the scan ends with
    [busy] false, [lines] empty, [structured] absent and the image URI it
    started with; the only effects are those of the capture itself, and none
    of them is an alert. *)
Theorem cancelled_capture w st :
  captureGives w Canceled →
  ∃ st',
    pickAndScan w st = Returned tt st' ∧
    session st' = {| imageUri := imageUri (session st); lines := [];
                     structured := None; busy := false |} ∧
    effects st' = (effects st ++ captureEffects w)%list ∧
    Forall (fun e => isAlert e = false) (captureEffects w).
Proof.
  intros Hc. rewrite pickAndScan_started.
  unfold try_finally, try_catch, scanBody, mbind, M_bind, bind.
  rewrite (acquire_gives w Canceled (started st) Hc). simpl.
  eexists. repeat split.
  unfold captureEffects. case_decide; by repeat constructor.
Qed.

Lemma cancelled_capture_witness :
  ∃ st',
    pickAndScan dismissed idle = Returned tt st' ∧
    session st' = {| imageUri := None; lines := []; structured := None;
                     busy := false |} ∧
    effects st' = [RequestCameraPermissions; LaunchCamera 1] ∧
    Forall (fun e => isAlert e = false) [RequestCameraPermissions; LaunchCamera 1].
Proof.
  refine (cancelled_capture dismissed idle _).
  split; reflexivity.
Defined.

(** A scan body that is suspended waits on a promise that never settles, and
    it has not touched [busy]. *)
Lemma scanBody_suspended w st st' :
  scanBody w st = Suspended st' →
  busy (session st') = busy (session st) ∧ ¬ responsive w.
Proof.
  unfold responsive. run. intros H.
  assert (∀ req, fetch w req = Unsettled →
            ¬ ∀ req, match fetch w req with
                     | Resolved resp =>
                         resp_json resp ≠ Unsettled ∧ resp_blob resp ≠ Unsettled
                     | Rejected _ => True
                     | Unsettled => False
                     end) as Hfetch.
  { intros req E Hall. specialize (Hall req). by rewrite E in Hall. }
  assert (∀ req resp, fetch w req = Resolved resp →
            resp_json resp = Unsettled ∨ resp_blob resp = Unsettled →
            ¬ ∀ req, match fetch w req with
                     | Resolved resp =>
                         resp_json resp ≠ Unsettled ∧ resp_blob resp ≠ Unsettled
                     | Rejected _ => True
                     | Unsettled => False
                     end) as Hbody.
  { intros req resp E Hor Hall. specialize (Hall req). rewrite E in Hall.
    destruct Hall as [Hj Hb]. destruct Hor; congruence. }
  repeat match type of H with
         | context [match ?x with _ => _ end] =>
             lazymatch x with
             | context [match _ with _ => _ end] => fail
             | _ => destruct x eqn:?; simpl in H; try discriminate
             end
         end;
    inversion H; subst; simpl; (split; [done|]);
    intros (? & ? & ? & Hall);
    first [ congruence
          | eapply Hfetch; eauto; fail
          | eapply Hbody; eauto; fail ].
Qed.

(** C4. A scan never rejects. When it returns, [busy] is false, whichever
    way it went: success, cancellation, or an exception thrown by any step.
    It only fails to return when it awaits a promise that never settles. *)
Theorem busy_false_when_settled w st :
  match pickAndScan w st with
  | Returned _ st' => busy (session st') = false
  | Threw _ _ => False
  | Suspended st' => busy (session st') = true ∧ ¬ responsive w
  end.
Proof.
  rewrite pickAndScan_started. unfold try_finally, try_catch.
  destruct (scanBody w (started st)) as [[] st'|e st'|st'] eqn:E; simpl; try done.
  by apply scanBody_suspended in E.
Qed.

Lemma busy_false_when_settled_witness :
  busy (session (final (pickAndScan (browser failedResponse) idle))) = false.
Proof.
  exact (busy_false_when_settled (browser failedResponse) idle).
Defined.

(** C2 as stated fails: [pickAndScan] called while a scan is in flight
    ([busy] true) runs a second capture and upload and changes the session. *)
Lemma pickAndScan_while_busy_runs :
  busy (session scanning) = true ∧
  ∃ st',
    pickAndScan (browser okResponse) scanning = Returned tt st' ∧
    session st' ≠ session scanning ∧
    lines (session st') = [sugarLine] ∧
    busy (session st') = false ∧
    length (uploads scanning) = 1%nat ∧
    length (uploads st') = 2%nat.
Proof.
  split; [reflexivity|]. eexists. split; [reflexivity|].
  split; [|by repeat split]. discriminate.
Qed.

(** C2 (as amended). While [busy] is true the scan button is disabled, and
    pressing it does nothing: [pickAndScan] is not called, no effect is
    added and the session is unchanged. *)
Theorem press_while_busy_ignored w st :
  busy (session st) = true →
  disabled (scanButton w (session st)) = true ∧
  pressScan w st = Returned tt st.
Proof.
  intros Hb. unfold pressScan, press, scanButton. simpl. by rewrite Hb.
Qed.

Lemma press_while_busy_ignored_witness :
  disabled (scanButton (browser okResponse) (session scanning)) = true ∧
  pressScan (browser okResponse) scanning = Returned tt scanning.
Proof.
  apply (press_while_busy_ignored (browser okResponse) scanning). reflexivity.
Defined.

Lemma press_when_idle w st :
  busy (session st) = false → pressScan w st = pickAndScan w st.
Proof.
  intros Hb. unfold pressScan, press, scanButton. simpl. by rewrite Hb.
Qed.

End ScanSpec.

(** ** More on the score engine *)

Module ScoreFacts.
Import Score Table Penalty ScoreSpec.

Lemma isTrue_mk ings algs adds f k :
  isTrue (mkStructured ings algs adds f) k ↔ f ≫= (.!! k) = Some true.
Proof. reflexivity. Qed.

Lemma flagPenalty_0 s :
  flagPenalty s = 0 ↔ ∀ k, k ∈ scored → ¬ isTrue s k.
Proof.
  unfold flagPenalty, scored. split.
  - intros H0 k Hk.
    repeat (apply elem_of_cons in Hk as [->|Hk];
            [intros Ht; rewrite (decide_True _ _ Ht) in H0;
             repeat case_decide; lia|]).
    by apply elem_of_nil in Hk.
  - intros Hn. rewrite !decide_False; [done|..]; apply Hn; in_scored.
Qed.

Lemma flagPenalty_iff s s' :
  (∀ k, k ∈ scored → isTrue s k ↔ isTrue s' k) →
  flagPenalty s = flagPenalty s'.
Proof.
  intros Hiff. unfold flagPenalty.
  assert (∀ k (p : Z), k ∈ scored →
            (if decide (isTrue s k) then p else 0) =
            (if decide (isTrue s' k) then p else 0)) as Hd.
  { intros k p Hk. apply decide_ext. by apply Hiff. }
  rewrite !Hd by in_scored. done.
Qed.

(** The score is 100 exactly when none of the four scored flags is true and
    there is no additive. *)
Theorem score_100_iff s :
  computeHealthScore (Some s) = Some 100 ↔
  (∀ k, k ∈ scored → ¬ isTrue s k) ∧ default [] (additives s) = [].
Proof.
  rewrite computeHealthScore_table, <- flagPenalty_0. unfold tableScore, count.
  pose proof (flagPenalty_bounds s) as Hb.
  split.
  - intros [= Hs]. split; [lia|].
    destruct (default [] (additives s)); [done|]. simpl in Hs. lia.
  - intros [-> ->]. reflexivity.
Qed.

Lemma score_100_iff_witness :
  computeHealthScore
    (Some (mkStructured None None (Some [])
             (Some (mkFlags [("palmOil", false); ("organic", true)])))) = Some 100.
Proof.
  apply score_100_iff. split; [|reflexivity].
  intros k Hk. unfold scored in Hk.
  repeat (apply elem_of_cons in Hk as [->|Hk]; [discriminate|]).
  by apply elem_of_nil in Hk.
Defined.

(** The score is settled by which of the four scored flags are true and by
    the number of additives: ingredients, allergens and other flags are not
    read, an absent flags object or additives list counts like an empty one,
    and a flag set to false like a flag that is not there. *)
Theorem score_settled_by_flags_and_count s s' :
  (∀ k, k ∈ scored → isTrue s k ↔ isTrue s' k) →
  length (default [] (additives s)) = length (default [] (additives s')) →
  computeHealthScore (Some s) = computeHealthScore (Some s').
Proof.
  intros Hf Hc. rewrite !computeHealthScore_table. f_equal.
  unfold tableScore, count. by rewrite (flagPenalty_iff s s' Hf), Hc.
Qed.

Lemma score_settled_by_flags_and_count_witness :
  computeHealthScore
    (Some (mkStructured (Some [mkIngredient "water" undefined]) None None None)) =
  computeHealthScore
    (Some (mkStructured None (Some ["milk"]) (Some [])
             (Some (mkFlags [("palmOil", false); ("organic", true)])))).
Proof.
  apply score_settled_by_flags_and_count; [|reflexivity].
  intros k Hk. unfold scored in Hk.
  repeat (apply elem_of_cons in Hk as [->|Hk];
          [split; intros Ht; discriminate Ht|]).
  by apply elem_of_nil in Hk.
Defined.

Lemma flagPenalty_mono s s' :
  (∀ k, k ∈ scored → isTrue s k → isTrue s' k) →
  flagPenalty s ≤ flagPenalty s'.
Proof.
  intros Hsub. unfold flagPenalty.
  assert (∀ k (p : Z), k ∈ scored → 0 ≤ p →
            (if decide (isTrue s k) then p else 0) ≤
            (if decide (isTrue s' k) then p else 0)) as Hd.
  { intros k p Hk Hp. destruct (decide (isTrue s k)) as [Ht|Hf].
    - rewrite decide_True by (by apply Hsub). lia.
    - case_decide; lia. }
  pose proof (Hd "palmOil" 10 ltac:(in_scored) ltac:(lia)).
  pose proof (Hd "addedSugar" 15 ltac:(in_scored) ltac:(lia)).
  pose proof (Hd "addedSalt" 10 ltac:(in_scored) ltac:(lia)).
  pose proof (Hd "msgLikeEnhancer" 15 ltac:(in_scored) ltac:(lia)).
  lia.
Qed.

(** More never scores better: a result with at least the true scored flags
    of another and at least as many additives has a score that is not higher. *)
Theorem score_antitone s s' :
  (∀ k, k ∈ scored → isTrue s k → isTrue s' k) →
  (length (default [] (additives s)) ≤ length (default [] (additives s')))%nat →
  ∃ v v', computeHealthScore (Some s) = Some v ∧
          computeHealthScore (Some s') = Some v' ∧ v' ≤ v.
Proof.
  intros Hsub Hlen. exists (tableScore s), (tableScore s').
  rewrite !computeHealthScore_table. repeat split.
  unfold tableScore, count. pose proof (flagPenalty_mono s s' Hsub). lia.
Qed.

Lemma score_antitone_witness :
  ∃ v v',
    computeHealthScore
      (Some (mkStructured None None None
               (Some (mkFlags [("addedSalt", true)])))) = Some v ∧
    computeHealthScore
      (Some (mkStructured None None (Some [mkAdditive "E330" null])
               (Some (mkFlags [("addedSalt", true); ("palmOil", true)])))) = Some v' ∧
    v' ≤ v.
Proof.
  apply score_antitone.
  - intros k Hk. unfold scored in Hk.
    repeat (apply elem_of_cons in Hk as [->|Hk];
            [intros Ht; (reflexivity || discriminate Ht)|]).
    by apply elem_of_nil in Hk.
  - simpl. lia.
Defined.

(** From ten additives on, the number of additives no longer matters. *)
Theorem score_saturates ings algs f (adds adds' : list Additive) :
  (10 ≤ length adds)%nat →
  (10 ≤ length adds')%nat →
  computeHealthScore (Some (mkStructured ings algs (Some adds) f)) =
  computeHealthScore (Some (mkStructured ings algs (Some adds') f)).
Proof.
  intros Hl Hl'. rewrite !computeHealthScore_table. f_equal.
  unfold tableScore, count. simpl. by rewrite !Z.min_r by lia.
Qed.

Lemma score_saturates_witness :
  computeHealthScore
    (Some (mkStructured None None (Some (replicate 10 (mkAdditive "E621" null))) None)) =
  computeHealthScore
    (Some (mkStructured None None (Some (replicate 50 (mkAdditive "E621" null))) None)).
Proof.
  apply score_saturates; rewrite length_replicate; lia.
Defined.

(** Below ten additives, one more additive costs exactly two points. *)
Theorem one_more_additive ings algs f (a : Additive) (adds : list Additive) :
  (length adds < 10)%nat →
  computeHealthScore (Some (mkStructured ings algs (Some (a :: adds)) f)) =
  (fun v => v - 2) <$>
    computeHealthScore (Some (mkStructured ings algs (Some adds) f)).
Proof.
  intros Hl. rewrite !computeHealthScore_table. simpl. f_equal.
  unfold tableScore, count. simpl length.
  pose proof (flagPenalty_bounds (mkStructured ings algs (Some adds) f)) as Hb.
  change (flagPenalty (mkStructured ings algs (Some (a :: adds)) f))
    with (flagPenalty (mkStructured ings algs (Some adds) f)).
  simpl. lia.
Qed.

Lemma one_more_additive_witness :
  computeHealthScore
    (Some (mkStructured None None
             (Some [mkAdditive "E330" null; mkAdditive "E621" null]) None)) =
  (fun v => v - 2) <$>
    computeHealthScore
      (Some (mkStructured None None (Some [mkAdditive "E621" null]) None)).
Proof.
  apply one_more_additive. simpl. lia.
Defined.

Lemma one_flag_term ings algs adds (o o' : Flags) k j (p : Z) :
  o !! k ≠ Some true →
  o' !! k = Some true →
  (∀ j, j ≠ k → o' !! j = o !! j) →
  (if decide (isTrue (mkStructured ings algs adds (Some o')) j) then p else 0) =
  (if decide (isTrue (mkStructured ings algs adds (Some o)) j) then p else 0) +
  (if decide (j = k) then p else 0).
Proof.
  intros Hk Hk' Hsame. destruct (decide (j = k)) as [->|Hne].
  - rewrite (decide_True (P := isTrue _ k)) by exact Hk'.
    rewrite (decide_False (P := isTrue _ k)) by exact Hk. lia.
  - assert (isTrue (mkStructured ings algs adds (Some o')) j ↔
            isTrue (mkStructured ings algs adds (Some o)) j) as Hiff.
    { unfold isTrue. change (o' !! j = Some true ↔ o !! j = Some true).
      by rewrite (Hsame j Hne). }
    rewrite (decide_ext _ _ p 0 Hiff). lia.
Qed.

(** A flags object that differs from another only in that flag [k] is now
    true scores lower by exactly the penalty of [k]: 10 for [palmOil] and
    [addedSalt], 15 for [addedSugar] and [msgLikeEnhancer], nothing for any
    other key. *)
Theorem one_more_flag ings algs adds (o o' : Flags) k :
  o !! k ≠ Some true →
  o' !! k = Some true →
  (∀ j, j ≠ k → o' !! j = o !! j) →
  computeHealthScore (Some (mkStructured ings algs adds (Some o'))) =
  (fun v => v - penalty k) <$>
    computeHealthScore (Some (mkStructured ings algs adds (Some o))).
Proof.
  intros Hk Hk' Hsame. rewrite !computeHealthScore_table. simpl. f_equal.
  unfold tableScore.
  pose proof (flagPenalty_bounds (mkStructured ings algs adds (Some o'))) as Hb.
  revert Hb.
  assert (flagPenalty (mkStructured ings algs adds (Some o')) =
          flagPenalty (mkStructured ings algs adds (Some o)) + penalty k) as ->.
  { unfold flagPenalty.
    rewrite !(one_flag_term ings algs adds o o' k) by done.
    unfold penalty.
    repeat case_decide; simplify_eq; lia. }
  intros Hb.
  pose proof (flagPenalty_bounds (mkStructured ings algs adds (Some o))) as Hb'.
  unfold count. simpl. lia.
Qed.

Lemma one_more_flag_witness :
  computeHealthScore
    (Some (mkStructured None None None
             (Some (mkFlags [("organic", true); ("addedSugar", true)])))) =
  (fun v => v - penalty "addedSugar") <$>
    computeHealthScore
      (Some (mkStructured None None None
               (Some (mkFlags [("organic", true); ("addedSugar", false)])))).
Proof.
  apply one_more_flag.
  - discriminate.
  - reflexivity.
  - intros j Hj. unfold lookup, Flags_lookup. simpl.
    destruct (decide ("organic" = j)); [reflexivity|].
    destruct (decide ("addedSugar" = j)) as [<-|]; [by destruct Hj|reflexivity].
Defined.

End ScoreFacts.

(** ** More on the session controller *)

Module ScanFacts.
Import Scan Path Failure Samples ScanSpec.

Lemma encodeEffects_gives w asset form st :
  encodeGives w asset form →
  buildForm w asset st =
  Returned form (mkStore (session st) (effects st ++ encodeEffects w asset)).
Proof.
  unfold encodeGives, encodeEffects. run. case_decide.
  - by intros (resp & blob & -> & -> & ->).
  - intros ->. rewrite app_nil_r. by destruct st.
Qed.

Lemma scanBody_to_upload w asset form rest st :
  captureGives w (Picked (asset :: rest)) →
  encodeGives w asset form →
  scanBody w st =
  (json ← uploadToBackend w form;
   setLines (orElse (optChain json json_lines) id []);;
   setStructured (orElse (optChain json json_structured) Some None))
    (mkStore {| imageUri := Some (uri asset); lines := lines (session st);
                structured := structured (session st);
                busy := busy (session st) |}
             (effects st ++ captureEffects w ++ encodeEffects w asset)).
Proof.
  intros Hc He.
  unfold captureGives, encodeGives, captureEffects, encodeEffects in *. run.
  case_decide.
  - destruct He as (r & blob & Hr & Hb & ->). rewrite Hc. simpl.
    rewrite Hr. simpl. rewrite Hb. simpl. by rewrite <- !app_assoc.
  - destruct Hc as [Hp Hc]. subst form. rewrite Hp. simpl. rewrite Hc. simpl.
    by rewrite <- !app_assoc.
Qed.

(** When the camera permission is refused the scan shows the alert
    "Camera permission denied" and stops: the camera is not opened, nothing
    is requested, the image stays as it was and the results are empty. *)
Theorem permission_denied w st status :
  permissionRefused w status →
  pickAndScan w st =
  Returned tt
    {| session := {| imageUri := imageUri (session st); lines := [];
                     structured := None; busy := false |};
       effects := effects st ++
                  [RequestCameraPermissions;
                   Alert "OCR failed" "Camera permission denied"] |}.
Proof.
  intros (Hos & Hp & Hs). run.
  rewrite decide_False by done. rewrite Hp. simpl.
  rewrite decide_True by done. simpl. by rewrite <- app_assoc.
Qed.

Lemma permission_denied_witness :
  pickAndScan refused idle =
  Returned tt
    {| session := mkSession None [] None false;
       effects := [RequestCameraPermissions;
                   Alert "OCR failed" "Camera permission denied"] |}.
Proof.
  apply (permission_denied refused idle denied).
  repeat split; discriminate.
Defined.

Lemma messageOr_nonempty e d : d ≠ "" → messageOr e d ≠ "".
Proof.
  intros Hd. unfold messageOr. destruct (message e) as [[|a m]|]; done.
Qed.

(** When the upload is rejected, or its answer cannot be read as JSON, the
    scan keeps the picked image, leaves the results empty and shows one alert
    with the error's message, or "Unknown error" when the error has no
    message or an empty one. *)
Theorem upload_failure w st asset form e :
  uploadFails w asset form e →
  pickAndScan w st =
  Returned tt
    {| session := {| imageUri := Some (uri asset); lines := [];
                     structured := None; busy := false |};
       effects := effects st ++ captureEffects w ++ encodeEffects w asset ++
                  [Fetch (ocrRequest w form);
                   Alert "OCR failed" (messageOr e "Unknown error")] |} ∧
  messageOr e "Unknown error" ≠ "".
Proof.
  intros (rest & Hc & He & Hf). split; [|by apply messageOr_nonempty].
  rewrite pickAndScan_started. unfold try_finally, try_catch.
  rewrite (scanBody_to_upload w asset form rest _ Hc He).
  destruct Hf as [Hf|(resp & Hf & Hok & Hj)]; run; rewrite Hf; simpl.
  - by rewrite <- !app_assoc.
  - rewrite Hok. simpl. rewrite Hj. simpl. by rewrite <- !app_assoc.
Qed.

Lemma upload_failure_witness :
  pickAndScan (offline (Error "")) idle =
  Returned tt
    {| session := mkSession (Some "blob:photo-1") [] None false;
       effects := [RequestCameraPermissions; LaunchCamera 1;
                   Fetch (ocrRequest (offline (Error ""))
                            [("file", FilePart "blob:photo-1" "photo.jpg" "image/jpeg")]);
                   Alert "OCR failed" "Unknown error"] |} ∧
  messageOr (Error "") "Unknown error" ≠ "".
Proof.
  apply (upload_failure (offline (Error "")) idle photo
           [("file", FilePart "blob:photo-1" "photo.jpg" "image/jpeg")] (Error "")).
  exists []. split; [by split|]. split; [reflexivity|]. by left.
Defined.

(** A picker result that is not cancelled but holds no asset ends in an
    alert with the engine's error for reading [uri] of [undefined]; no image
    is set and nothing is requested. *)
Theorem no_asset_picked w st :
  captureGives w (Picked []) →
  pickAndScan w st =
  Returned tt
    {| session := {| imageUri := imageUri (session st); lines := [];
                     structured := None; busy := false |};
       effects := effects st ++ captureEffects w ++
                  [Alert "OCR failed" (messageOr (typeError w "uri") "Unknown error")] |}.
Proof.
  intros Hc. rewrite pickAndScan_started.
  unfold try_finally, try_catch, scanBody, mbind, M_bind, bind.
  rewrite (acquire_gives w (Picked []) (started st) Hc). run.
  by rewrite <- !app_assoc.
Qed.

Lemma no_asset_picked_witness :
  pickAndScan noAsset idle =
  Returned tt
    {| session := mkSession None [] None false;
       effects := [LaunchImageLibrary false;
                   Alert "OCR failed"
                     "Cannot read properties of undefined (reading 'uri')"] |}.
Proof.
  apply (no_asset_picked noAsset idle). reflexivity.
Defined.

(** A successful scan asks the outside world for the capture, on the web
    for the bytes of the picked image, and for one upload, in this order, and
    for nothing else: it shows no alert. *)
Theorem success_effects w st asset form resp json :
  uploadAnswered w asset form resp →
  ok resp = true →
  resp_json resp = Resolved json →
  effects (final (pickAndScan w st)) =
  (effects st ++ captureEffects w ++ encodeEffects w asset ++
   [Fetch (ocrRequest w form)])%list.
Proof.
  intros (rest & Hc & He & Hf) Hok Hj.
  rewrite pickAndScan_started. unfold try_finally, try_catch.
  rewrite (scanBody_to_upload w asset form rest _ Hc He).
  run. rewrite Hf. simpl. rewrite Hok. simpl. rewrite Hj. simpl.
  by rewrite <- !app_assoc.
Qed.

Lemma success_effects_witness :
  effects (final (pickAndScan (browser okResponse) idle)) =
  [LaunchImageLibrary false;
   Fetch {| url := "blob:photo-1"; method := "GET"; body := None |};
   Fetch {| url := "http://127.0.0.1:8000/ocr"; method := "POST";
            body := Some [("file", BlobPart [] "photo.jpg")] |}].
Proof.
  apply (success_effects (browser okResponse) idle photo
           [("file", BlobPart [] "photo.jpg")] okResponse (Some okBody)).
  - exists []. split; [reflexivity|]. split; [|reflexivity].
    exists okResponse, []. repeat split; reflexivity.
  - reflexivity.
  - reflexivity.
Defined.

Ltac split_matches :=
  repeat match goal with
         | |- context [match ?x with _ => _ end] =>
             lazymatch x with
             | context [match _ with _ => _ end] => fail
             | _ => destruct x eqn:?
             end; simpl
         end.

Ltac in_log H :=
  repeat (apply elem_of_cons in H as [H|H]; [try discriminate|]);
  try (apply elem_of_nil in H; destruct H).

(** What the body of the [try] block may do to the outside world. *)
Lemma scanBody_log w st :
  ∃ log,
    effects (final (scanBody w st)) = (effects st ++ log)%list ∧
    Forall (fun e => isAlert e = false) log ∧
    (length (filter (fun e => isUpload e = true) log) ≤ 1)%nat ∧
    ∀ req, Fetch req ∈ log → method req = "POST" →
      url req = BACKEND_URL w +:+ "/ocr" ∧
      ∃ v u, body req = Some [("file", v)] ∧
             imageUri (session (final (scanBody w st))) = Some u ∧
             isPhotoPart w u v.
Proof.
  run. split_matches;
    (eexists; split; [rewrite <- ?app_assoc; reflexivity|]);
    (split; [by repeat constructor|]);
    (split; [simpl; lia|]);
    intros req Hin Hm; in_log Hin;
    try (injection Hin as ->; simpl in Hm; try discriminate);
    (split; [reflexivity|]); eexists _, _;
    (split; [reflexivity|]); (split; [reflexivity|]); simpl; eauto 10.
Qed.

Lemma filter_alert_free (log : list Effect) :
  Forall (fun e => isAlert e = false) log →
  filter (fun e => isAlert e = true) log = [].
Proof.
  induction 1 as [|e l He _ IH]; [done|].
  rewrite filter_cons_False by (rewrite He; discriminate). exact IH.
Qed.

Lemma alert_free_not_in (log : list Effect) t m :
  Forall (fun e => isAlert e = false) log → Alert t m ∉ log.
Proof.
  intros Hall Hin. rewrite Forall_forall in Hall.
  specialize (Hall _ Hin). discriminate.
Qed.

(** One scan shows at most one alert. An alert is the last thing the scan
    does; its title is "OCR failed" and its message is never empty. *)
Theorem at_most_one_alert w st :
  ∃ log,
    effects (final (pickAndScan w st)) = (effects st ++ log)%list ∧
    (length (filter (fun e => isAlert e = true) log) ≤ 1)%nat ∧
    ∀ t m, Alert t m ∈ log →
           t = "OCR failed" ∧ m ≠ "" ∧ last log = Some (Alert t m).
Proof.
  destruct (scanBody_log w (started st)) as (log & Hlog & Hfree & _).
  rewrite pickAndScan_started. unfold try_finally, try_catch.
  destruct (scanBody w (started st)) as [[] st'|e st'|st']; simpl in *.
  - exists log. split; [done|]. rewrite (filter_alert_free log Hfree).
    split; [simpl; lia|]. intros t m Hin.
    by destruct (alert_free_not_in log t m Hfree).
  - exists (log ++ [Alert "OCR failed" (messageOr e "Unknown error")])%list.
    rewrite Hlog, app_assoc. split; [done|].
    rewrite filter_app, (filter_alert_free log Hfree). split; [simpl; lia|].
    intros t m Hin. apply elem_of_app in Hin as [Hin|Hin].
    + by destruct (alert_free_not_in log t m Hfree).
    + apply list_elem_of_singleton in Hin. injection Hin as -> ->.
      split; [done|]. split; [by apply messageOr_nonempty|].
      apply last_snoc.
  - exists log. split; [done|]. rewrite (filter_alert_free log Hfree).
    split; [simpl; lia|]. intros t m Hin.
    by destruct (alert_free_not_in log t m Hfree).
Qed.

(** One scan sends at most one upload. The upload is a POST to the [/ocr]
    path of the backend with a single form field, [file], made from the
    image the session shows. *)
Theorem at_most_one_upload w st :
  ∃ log,
    effects (final (pickAndScan w st)) = (effects st ++ log)%list ∧
    (length (filter (fun e => isUpload e = true) log) ≤ 1)%nat ∧
    ∀ req, Fetch req ∈ log → method req = "POST" →
      url req = BACKEND_URL w +:+ "/ocr" ∧
      ∃ v u, body req = Some [("file", v)] ∧
             imageUri (session (final (pickAndScan w st))) = Some u ∧
             isPhotoPart w u v.
Proof.
  destruct (scanBody_log w (started st)) as (log & Hlog & _ & Hup & Hreq).
  rewrite pickAndScan_started. unfold try_finally, try_catch.
  destruct (scanBody w (started st)) as [[] st'|e st'|st']; simpl in *.
  - exists log. done.
  - exists (log ++ [Alert "OCR failed" (messageOr e "Unknown error")])%list.
    rewrite Hlog, app_assoc. split; [done|].
    rewrite filter_app, length_app. split; [simpl; lia|].
    intros req Hin Hm. apply elem_of_app in Hin as [Hin|Hin]; [by apply Hreq|].
    apply list_elem_of_singleton in Hin. discriminate.
  - exists log. done.
Qed.

Lemma at_most_one_alert_witness :
  "OCR failed" = "OCR failed" ∧ "Camera permission denied" ≠ "" ∧
  last (effects (final (pickAndScan refused idle))) =
  Some (Alert "OCR failed" "Camera permission denied").
Proof.
  destruct (at_most_one_alert refused idle) as (log & Hlog & _ & Halert).
  simpl in Hlog. subst log.
  apply Halert. apply list_elem_of_further, list_elem_of_here.
Defined.

Lemma at_most_one_upload_witness :
  "http://127.0.0.1:8000/ocr" = BACKEND_URL (browser okResponse) +:+ "/ocr" ∧
  ∃ v u, Some [("file", BlobPart [] "photo.jpg")] = Some [("file", v)] ∧
         imageUri (session (final (pickAndScan (browser okResponse) idle))) = Some u ∧
         isPhotoPart (browser okResponse) u v.
Proof.
  destruct (at_most_one_upload (browser okResponse) idle) as (log & Hlog & _ & Hreq).
  simpl in Hlog. subst log.
  apply (Hreq {| url := "http://127.0.0.1:8000/ocr"; method := "POST";
                 body := Some [("file", BlobPart [] "photo.jpg")] |}).
  - do 2 apply list_elem_of_further. apply list_elem_of_here.
  - reflexivity.
Defined.

(** *** The session after a scan does not depend on the log *)

Create HintDb logblind.

Lemma logBlind_ret {A} (a : A) : logBlind (mret a).
Proof. intros st1 st2 Hs. by split. Qed.

Lemma logBlind_throw {A} e : logBlind (@throw A e).
Proof. intros st1 st2 Hs. by split. Qed.

Lemma logBlind_await {A} (p : Await A) : logBlind (await p).
Proof. intros st1 st2 Hs. unfold await. destruct p; simpl; auto. Qed.

Lemma logBlind_perform e : logBlind (perform e).
Proof. intros st1 st2 Hs. by split. Qed.

Lemma logBlind_update f : logBlind (update f).
Proof. intros st1 st2 Hs. split; [done|]. simpl. by rewrite Hs. Qed.

Lemma logBlind_bind {A B} (m : M A) (k : A → M B) :
  logBlind m → (∀ a, logBlind (k a)) → logBlind (m ≫= k).
Proof.
  intros Hm Hk st1 st2 Hs. specialize (Hm st1 st2 Hs).
  unfold mbind, M_bind, bind.
  destruct (m st1), (m st2); simpl in *; try done.
  destruct Hm as [-> Hs']. by apply Hk.
Qed.

Lemma logBlind_try_catch {A} (m : M A) h :
  logBlind m → (∀ e, logBlind (h e)) → logBlind (try_catch m h).
Proof.
  intros Hm Hh st1 st2 Hs. specialize (Hm st1 st2 Hs). unfold try_catch.
  destruct (m st1), (m st2); simpl in *; try done.
  destruct Hm as [-> Hs']. by apply Hh.
Qed.

Lemma logBlind_try_finally {A} (m : M A) f :
  logBlind m → logBlind f → logBlind (try_finally m f).
Proof.
  intros Hm Hf st1 st2 Hs. specialize (Hm st1 st2 Hs). unfold try_finally.
  destruct (m st1), (m st2); simpl in *; try done; destruct Hm as [-> Hs'].
  - apply (logBlind_bind f (fun _ => ret a0));
      [done|intros _; apply logBlind_ret|done].
  - apply (logBlind_bind f (fun _ => throw e0));
      [done|intros _; apply logBlind_throw|done].
Qed.

#[local] Hint Resolve logBlind_ret logBlind_throw logBlind_await
  logBlind_perform logBlind_update logBlind_bind logBlind_try_catch
  logBlind_try_finally : logblind.

Lemma logBlind_uploadToBackend w form : logBlind (uploadToBackend w form).
Proof.
  unfold uploadToBackend, doFetch. apply logBlind_bind; [auto with logblind|].
  intros resp. destruct (negb (ok resp)); auto with logblind.
Qed.

Lemma logBlind_scanBody w : logBlind (scanBody w).
Proof.
  unfold scanBody, acquire, buildForm, doFetch, setImageUri, setLines,
    setStructured.
  apply logBlind_bind.
  - case_decide; [auto with logblind|].
    apply logBlind_bind; [auto with logblind|].
    intros status. case_decide; auto with logblind.
  - intros [|assets]; [apply logBlind_ret|].
    apply logBlind_bind; [destruct (assets !! 0%nat); auto with logblind|].
    intros asset. apply logBlind_bind; [auto with logblind|]. intros _.
    apply logBlind_bind; [case_decide; auto 10 with logblind|]. intros form.
    apply logBlind_bind; [apply logBlind_uploadToBackend|].
    intros json. auto with logblind.
Qed.

(** Nothing of an earlier scan survives a new one: how a scan ends and the
    session it leaves depend on the world and on the image shown before,
    not on the earlier lines, structured result, busy flag or effects. *)
Theorem earlier_results_do_not_matter w st1 st2 :
  imageUri (session st1) = imageUri (session st2) →
  sameSession (pickAndScan w st1) (pickAndScan w st2).
Proof.
  intros Hi. rewrite !pickAndScan_started.
  apply logBlind_try_finally.
  - apply logBlind_try_catch; [apply logBlind_scanBody|].
    intros e. apply logBlind_perform.
  - apply logBlind_update.
  - unfold started. simpl. by rewrite Hi.
Qed.

Lemma earlier_results_do_not_matter_witness :
  sameSession (pickAndScan (browser okResponse) idle)
              (pickAndScan (browser okResponse)
                 {| session := mkSession None [sugarLine] (Some worstCase) true;
                    effects := [LaunchImageLibrary false] |}).
Proof.
  apply earlier_results_do_not_matter. reflexivity.
Defined.

End ScanFacts.

(** ** The screen *)

Module ScreenFacts.
Import Scan Path Failure Fields Samples Screen ScanSpec ScanFacts.

Lemma shownFlags_elem r k :
  wellFormed (default ∅ (flags r)) →
  k ∈ shownFlags r ↔ default ∅ (flags r) !! k = Some true.
Proof.
  intros Hwf. unfold shownFlags, lookup, Flags_lookup.
  rewrite (ScoreSpec.getProperty_elem _ k true Hwf), list_elem_of_fmap. split.
  - intros ([k' b] & -> & Hin). apply list_elem_of_filter in Hin as [Hb Hin].
    simpl in *. by subst b.
  - intros Hk. exists (k, true). split; [done|].
    by apply list_elem_of_filter.
Qed.




(** When no flag is true (the flags object is absent, empty, or all its
    flags are false) the Flags line reads "none". *)
Theorem flags_line_none r :
  wellFormed (default ∅ (flags r)) →
  (∀ k, Score.flag r k = false) →
  flagsText r = "none".
Proof.
  intros Hwf Hnone. unfold flagsText.
  assert (shownFlags r = []) as ->; [|reflexivity].
  destruct (shownFlags r) as [|k l] eqn:E; [done|].
  assert (k ∈ shownFlags r) as Hin by (rewrite E; apply list_elem_of_here).
  apply (shownFlags_elem r k Hwf) in Hin.
  specialize (Hnone k). unfold Score.flag in Hnone.
  destruct (flags r) as [m|]; simpl in Hin.
  - rewrite Hin in Hnone. discriminate.
  - discriminate.
Qed.

Lemma flags_line_none_witness :
  flagsText
    (mkStructured None None None (Some (mkFlags [("palmOil", false)]))) = "none".
Proof.
  apply flags_line_none.
  - unfold wellFormed. simpl. apply NoDup_singleton.
  - intros k. unfold Score.flag, lookup, Flags_lookup. simpl.
    by destruct (decide ("palmOil" = k)).
Defined.









End ScreenFacts.
